(** * MU Foods API: a shallow embedding of the HTTP handlers

    The handlers of [main.py] and the schemas of [schemas.py], as Rocq
    functions over an explicit document store.

    - A stored document is a Python [dict]: a finite map from field names
      to values.
    - The module-level [db] handle of [main.py] is [None] or a database
      handle; every handler takes it and gives it back, so the state of
      the store is threaded explicitly.
    - A handler either returns a value or raises; the framework turns the
      outcome into an HTTP status. *)

From Stdlib Require Import ZArith NArith String Ascii List Bool Floats.
From stdpp Require Import base option list strings gmap.

Local Open Scope Z_scope.
Set Warnings "-inexact-float".

(** ** Values and documents *)

Definition ObjectId := N.

(** A [datetime]: microseconds since the epoch, UTC. *)
Definition datetime := Z.

(** The values the handlers read and write: [None], [bool], [int], [float],
    [str], a list of strings (the schema's only list type, [tags]), a
    [datetime] and the store's [ObjectId]. *)
Inductive value :=
| VNone
| VBool (b : bool)
| VInt (n : Z)
| VFloat (x : float)
| VStr (s : string)
| VList (l : list string)
| VDatetime (t : datetime)
| VObjectId (i : ObjectId).

Abbreviation document := (gmap string value).

(** A dict literal [{k1: v1, ...}]. *)
Definition dict (kvs : list (string * value)) : document := list_to_map kvs.

(** ** Outcomes of a handler *)

Inductive exn :=
| HTTPException (status_code : Z) (detail : string)
| RequestValidationError
| ValidationError (field : string)
| OperationFailure (msg : string)
| Exception (msg : string).

Inductive outcome (A : Type) :=
| Returned (a : A)
| Raised (e : exn).
Arguments Returned {A} a.
Arguments Raised {A} e.

Definition bind {A B} (m : outcome A) (k : A → outcome B) : outcome B :=
  match m with
  | Returned a => k a
  | Raised e => Raised e
  end.

(** The status FastAPI answers with: 200 for a returned value, the code of
    an [HTTPException], 422 for a request that failed validation against
    the handler's declared body model, and 500 for any other exception that
    leaves the handler. *)
Definition http_status {A} (r : outcome A) : Z :=
  match r with
  | Returned _ => 200
  | Raised (HTTPException c _) => c
  | Raised RequestValidationError => 422
  | Raised _ => 500
  end.

(** ** The document store *)

(** A database handle.  [listing_error], when set, is the error with which
    [list_collection_names()] fails on this handle. *)
Record database := {
  db_name : option string;
  collections : gmap string (list document);
  next_id : ObjectId;
  listing_error : option string;
}.

(** [db[c]]: a collection that was never written to is empty. *)
Definition collection (h : database) (c : string) : list document :=
  default [] (collections h !! c).

(** [db[c].count_documents({})] *)
Definition count_documents (h : database) (c : string) : Z :=
  Z.of_nat (length (collection h c)).

(** The store gives every inserted document that has no [_id] a fresh one. *)
Fixpoint assign_ids (next : ObjectId) (docs : list document)
  : list document * ObjectId :=
  match docs with
  | [] => ([], next)
  | d :: ds =>
      match d !! "_id" with
      | Some _ =>
          let '(ds', n) := assign_ids next ds in (d :: ds', n)
      | None =>
          let '(ds', n) := assign_ids (N.succ next) ds in
          (<["_id" := VObjectId next]> d :: ds', n)
      end
  end.

(** [db[c].insert_many(docs)] *)
Definition insert_many (h : database) (c : string) (docs : list document)
  : database :=
  let '(docs', n) := assign_ids (next_id h) docs in
  {| db_name := db_name h;
     collections := <[c := collection h c ++ docs']> (collections h);
     next_id := n;
     listing_error := listing_error h |}.

(** [db.list_collection_names()] *)
Definition list_collection_names (h : database) : outcome (list string) :=
  match listing_error h with
  | Some msg => Raised (OperationFailure msg)
  | None => Returned (fst <$> map_to_list (collections h))
  end.

(** ** POST /api/beverages/seed *)

Record seed_response := {
  seed_ok : bool;
  seed_message : string;
  seed_count : Z;
}.

Definition sample : list document :=
  [ dict [ ("name", VStr "Citrus Zing");
           ("flavor", VStr "Lemon + Lime");
           ("description",
            VStr "A bright, zesty squash made from sun-ripened lemons and limes.");
           ("price", VFloat 3.99);
           ("size_ml", VInt 500);
           ("image_url",
            VStr "https://images.unsplash.com/photo-1524594227084-6df73d85d2f9?w=800&q=80");
           ("tags", VList ["citrus"; "refreshing"; "vegan"]);
           ("in_stock", VBool true) ];
    dict [ ("name", VStr "Mango Bliss");
           ("flavor", VStr "Alphonso Mango");
           ("description",
            VStr "Thick, luscious mango squash with no added preservatives.");
           ("price", VFloat 4.49);
           ("size_ml", VInt 500);
           ("image_url",
            VStr "https://images.unsplash.com/photo-1547514701-42782101795e?w=800&q=80");
           ("tags", VList ["tropical"; "best-seller"]);
           ("in_stock", VBool true) ];
    dict [ ("name", VStr "Guava Glow");
           ("flavor", VStr "Pink Guava");
           ("description",
            VStr "Delicately sweet guava squash perfect for summer coolers.");
           ("price", VFloat 4.29);
           ("size_ml", VInt 500);
           ("image_url",
            VStr "https://images.unsplash.com/photo-1604908554027-6e2ce8f94bd7?w=800&q=80");
           ("tags", VList ["tropical"; "vitamin-c"]);
           ("in_stock", VBool true) ];
    dict [ ("name", VStr "Orange Orchard");
           ("flavor", VStr "Valencia Orange");
           ("description",
            VStr "Classic orange squash with a clean, fresh finish.");
           ("price", VFloat 3.79);
           ("size_ml", VInt 500);
           ("image_url",
            VStr "https://images.unsplash.com/photo-1557800636-894a64c1696f?w=800&q=80");
           ("tags", VList ["citrus"; "family"]);
           ("in_stock", VBool true) ] ].

(** [s["created_at"] = now; s["updated_at"] = now] *)
Definition stamp (now : datetime) (s : document) : document :=
  <["updated_at" := VDatetime now]> (<["created_at" := VDatetime now]> s).

Definition seed_beverages (now : datetime) (db : option database)
  : outcome seed_response * option database :=
  match db with
  | None => (Raised (HTTPException 500 "Database not configured"), None)
  | Some h =>
      let count := count_documents h "beverage" in
      if 0 <? count then
        (Returned {| seed_ok := true;
                     seed_message := "Beverages already seeded";
                     seed_count := count |},
         Some h)
      else
        let sample := stamp now <$> sample in
        (Returned {| seed_ok := true;
                     seed_message := "Seeded beverages";
                     seed_count := Z.of_nat (length sample) |},
         Some (insert_many h "beverage" sample))
  end.

(** ** Regular expressions: the store's [$regex] operator

    Strings are byte strings (UTF-8).  Within ASCII a byte is a
    character and case is the case of the letters A to Z: patterns made
    of ordinary ASCII characters and [.] are interpreted here, on ASCII
    subjects.  Every other pattern, and every subject with a byte outside
    ASCII, is handed to the store's own engine, [pcre], which answers
    with a matcher or rejects the pattern. *)

Inductive atom :=
| Lit (c : ascii)
| AnyChar.

Definition metachars : list ascii :=
  list_ascii_of_string "\^$.|?*+()[]{}".

Definition metachar (c : ascii) : bool :=
  existsb (Ascii.eqb c) metachars.

Definition dot : ascii := "."%char.
Definition newline : ascii := ascii_of_nat 10.

Definition ascii7 (c : ascii) : bool := (nat_of_ascii c <? 128)%nat.

Definition ascii_only (s : string) : bool :=
  forallb ascii7 (list_ascii_of_string s).

(** A pattern character that stands for itself: ASCII, not a
    metacharacter and not the NUL byte, which a pattern cannot hold. *)
Definition ordinary (c : ascii) : bool :=
  negb (metachar c) && ascii7 c && negb (Ascii.eqb c Ascii.zero).

Definition atom_of (c : ascii) : option atom :=
  if Ascii.eqb c dot then Some AnyChar
  else if ordinary c then Some (Lit c)
  else None.

Fixpoint atoms (pattern : list ascii) : option (list atom) :=
  match pattern with
  | [] => Some []
  | c :: p =>
      match atom_of c, atoms p with
      | Some a, Some r => Some (a :: r)
      | _, _ => None
      end
  end.

Definition lower (c : ascii) : ascii :=
  let n := nat_of_ascii c in
  if (65 <=? n)%nat && (n <=? 90)%nat then ascii_of_nat (n + 32) else c.

Definition atom_matches (a : atom) (c : ascii) : bool :=
  match a with
  | Lit x => Ascii.eqb (lower x) (lower c)
  | AnyChar => negb (Ascii.eqb c newline)
  end.

(** The pattern matches a prefix of the subject. *)
Fixpoint match_here (p : list atom) (s : list ascii) : bool :=
  match p, s with
  | [], _ => true
  | a :: p', c :: s' => atom_matches a c && match_here p' s'
  | _ :: _, [] => false
  end.

(** An unanchored pattern matches anywhere in the subject. *)
Fixpoint search (p : list atom) (s : list ascii) : bool :=
  match_here p s ||
  match s with
  | [] => false
  | _ :: s' => search p s'
  end.

(** ** Queries *)

(** [v], [{"$in": vs}] and [{"$regex": pattern, "$options": options}]. *)
Inductive condition :=
| CEq (v : value)
| CIn (vs : list string)
| CRegex (pattern options : string).

(** An entry of a filter: a condition on a field, or the alternatives of
    an ["$or"]. *)
Inductive clause :=
| Cond (c : condition)
| Or (alts : list (gmap string condition)).

Definition string_eqb_list (s : string) (l : list string) : bool :=
  existsb (String.eqb s) l.

Definition value_eqb (v w : value) : bool :=
  match v, w with
  | VNone, VNone => true
  | VBool a, VBool b => Bool.eqb a b
  | VInt a, VInt b => Z.eqb a b
  | VFloat a, VFloat b => PrimFloat.eqb a b
  | VStr a, VStr b => String.eqb a b
  | VList a, VList b => bool_decide (a = b)
  | VDatetime a, VDatetime b => Z.eqb a b
  | VObjectId a, VObjectId b => N.eqb a b
  | _, _ => false
  end.

Section Store.

(** The store's engine for what is not interpreted above: given the
    pattern and its options, a matcher, or [None] when the pattern does
    not compile. *)
Variable pcre : string → string → option (string → bool).

(** The engine's answer on one subject. *)
Definition pcre_match (pattern options s : string) : bool :=
  match pcre pattern options with
  | Some m => m s
  | None => false
  end.

Definition compile (pattern options : string) : option (string → bool) :=
  match atoms (list_ascii_of_string pattern) with
  | Some p =>
      if String.eqb options "i"
      then Some (λ s, if ascii_only s
                      then search p (list_ascii_of_string s)
                      else pcre_match pattern options s)
      else pcre pattern options
  | None => pcre pattern options
  end.

Definition regex_match (pattern options s : string) : bool :=
  match compile pattern options with
  | Some m => m s
  | None => false
  end.

(** A condition on the value of a field ([None]: the document has no such
    field).  A condition on a list holds when the list as a whole, or one
    of its elements, satisfies it. *)
Definition holds (c : condition) (fv : option value) : bool :=
  match c, fv with
  | CEq VNone, None => true
  | CEq v, Some (VList l) =>
      value_eqb v (VList l) ||
      match v with VStr s => string_eqb_list s l | _ => false end
  | CEq v, Some w => value_eqb v w
  | CIn vs, Some (VStr s) => string_eqb_list s vs
  | CIn vs, Some (VList l) => existsb (λ s, string_eqb_list s vs) l
  | CRegex p o, Some (VStr s) => regex_match p o s
  | CRegex p o, Some (VList l) => existsb (regex_match p o) l
  | _, _ => false
  end.

(** Every entry of a flat filter [{field: condition, ...}] holds. *)
Definition matches_fields (d : document) (f : gmap string condition) : bool :=
  bool_decide (map_Forall (λ k c, holds c (d !! k) = true) f).

Definition clause_holds (d : document) (k : string) (c : clause) : bool :=
  match c with
  | Cond c => holds c (d !! k)
  | Or alts => String.eqb k "$or" && existsb (matches_fields d) alts
  end.

(** The entries of a filter are combined with a logical and. *)
Definition matches (d : document) (f : gmap string clause) : bool :=
  bool_decide (map_Forall (λ k c, clause_holds d k c = true) f).

(** A query is rejected as a whole when one of its patterns does not
    compile. *)
Definition condition_ok (c : condition) : bool :=
  match c with
  | CRegex p o => bool_decide (is_Some (compile p o))
  | _ => true
  end.

Definition clause_ok (k : string) (c : clause) : bool :=
  match c with
  | Cond c => condition_ok c
  | Or alts =>
      String.eqb k "$or" &&
      forallb (λ f, bool_decide (map_Forall (λ _ c, condition_ok c = true) f)) alts
  end.

Definition query_ok (f : gmap string clause) : bool :=
  bool_decide (map_Forall (λ k c, clause_ok k c = true) f).

(** [db[c].find(f)], as a list *)
Definition find (h : database) (c : string) (f : gmap string clause)
  : outcome (list document) :=
  if query_ok f
  then Returned (filter (λ d, matches d f = true) (collection h c))
  else Raised (OperationFailure "Regular expression is invalid").

(** Modelled from the spec: the store adapter's "find by filter",
    [get_documents(collection_name, filter_dict)] of the [database]
    module, which is not among the sources.  It runs the filter on the
    collection of the shared handle; with no handle there is nothing to
    search and it raises. *)
Definition get_documents (db : option database) (c : string)
    (f : gmap string clause) : outcome (list document) :=
  match db with
  | Some h => find h c f
  | None => Raised (Exception "Database not available")
  end.

(** ** GET /api/beverages *)

(** Python's truth value of an [Optional[str]]: [None] and the empty
    string are false. *)
Definition truthy (s : option string) : bool :=
  match s with
  | Some s => negb (String.eqb s "")
  | None => false
  end.

Definition regex_i (q : string) : condition := CRegex q "i".

Definition build_filter (tag q : option string) : gmap string clause :=
  let filter_dict := {[ "in_stock" := Cond (CEq (VBool true)) ]} in
  let filter_dict :=
    match tag with
    | Some t =>
        if truthy tag
        then <["tags" := Cond (CIn [t])]> filter_dict
        else filter_dict
    | None => filter_dict
    end in
  match q with
  | Some p =>
      if truthy q
      then <["$or" := Or [ {[ "name" := regex_i p ]};
                          {[ "flavor" := regex_i p ]};
                          {[ "description" := regex_i p ]} ]]> filter_dict
      else filter_dict
  | None => filter_dict
  end.

(** [i.pop("_id", None)] *)
Definition pop_id (i : document) : document := delete "_id" i.

Definition list_beverages (db : option database) (tag q : option string)
  : outcome (list document) :=
  bind (get_documents db "beverage" (build_filter tag q))
       (λ items, Returned (pop_id <$> items)).

End Store.

(** ** POST /api/contact *)

(** The body model of the route, [CreateInquiry]: every field a plain
    string. *)
Module CreateInquiry.
Record t := {
  name : string;
  email : string;
  phone : option string;
  subject : string;
  message : string;
}.
End CreateInquiry.

(** The schema [ContactInquiry]: the same fields, [email] an [EmailStr]. *)
Module ContactInquiry.
Record t := {
  name : string;
  email : string;
  phone : option string;
  subject : string;
  message : string;
}.
End ContactInquiry.

Record contact_response := {
  contact_ok : bool;
  contact_id : ObjectId;
}.

Definition str_field (body : document) (k : string) : outcome string :=
  match body !! k with
  | Some (VStr s) => Returned s
  | _ => Raised RequestValidationError
  end.

Definition optional_str_field (body : document) (k : string)
  : outcome (option string) :=
  match body !! k with
  | None | Some VNone => Returned None
  | Some (VStr s) => Returned (Some s)
  | Some _ => Raised RequestValidationError
  end.

(** The framework reads the JSON body of the request into the declared
    body model before it calls the handler. *)
Definition parse_CreateInquiry (body : document) : outcome CreateInquiry.t :=
  bind (str_field body "name") (λ name,
  bind (str_field body "email") (λ email,
  bind (optional_str_field body "phone") (λ phone,
  bind (str_field body "subject") (λ subject,
  bind (str_field body "message") (λ message,
  Returned {| CreateInquiry.name := name;
              CreateInquiry.email := email;
              CreateInquiry.phone := phone;
              CreateInquiry.subject := subject;
              CreateInquiry.message := message |}))))).

(** Modelled from the spec: the store adapter's "insert one",
    [create_document(collection_name, data)] of the [database] module,
    which is not among the sources.  It persists one record under a
    generated identifier and returns that identifier; with no handle it
    raises. *)
Definition create_document (db : option database) (c : string) (data : document)
  : outcome ObjectId * option database :=
  match db with
  | Some h => (Returned (next_id h), Some (insert_many h c [delete "_id" data]))
  | None => (Raised (Exception "Database not available"), None)
  end.

Section Contact.

(** The validator behind [EmailStr]: the normalised address, or [None]
    for a string that is not an email address. *)
Variable validate_email : string → option string.

(** The constructor of [ContactInquiry], called on the fields of the
    inquiry: it validates [email]. *)
Definition ContactInquiry_init (inquiry : CreateInquiry.t)
  : outcome ContactInquiry.t :=
  match validate_email (CreateInquiry.email inquiry) with
  | Some e =>
      Returned {| ContactInquiry.name := CreateInquiry.name inquiry;
                  ContactInquiry.email := e;
                  ContactInquiry.phone := CreateInquiry.phone inquiry;
                  ContactInquiry.subject := CreateInquiry.subject inquiry;
                  ContactInquiry.message := CreateInquiry.message inquiry |}
  | None => Raised (ValidationError "email")
  end.

Definition model_dump (ci : ContactInquiry.t) : document :=
  dict [ ("name", VStr (ContactInquiry.name ci));
         ("email", VStr (ContactInquiry.email ci));
         ("phone", from_option VStr VNone (ContactInquiry.phone ci));
         ("subject", VStr (ContactInquiry.subject ci));
         ("message", VStr (ContactInquiry.message ci)) ].

Definition submit_contact (inquiry : CreateInquiry.t) (db : option database)
  : outcome contact_response * option database :=
  match ContactInquiry_init inquiry with
  | Raised e => (Raised e, db)
  | Returned ci =>
      let '(r, db') := create_document db "contactinquiry" (model_dump ci) in
      (bind r (λ _id, Returned {| contact_ok := true; contact_id := _id |}), db')
  end.

(** The route: body validation by the framework, then the handler. *)
Definition post_contact (body : document) (db : option database)
  : outcome contact_response * option database :=
  match parse_CreateInquiry body with
  | Raised e => (Raised e, db)
  | Returned inquiry => submit_contact inquiry db
  end.

End Contact.

(** ** GET /test *)

Record diagnostics := {
  backend : string;
  database_status : string;
  database_url : option string;
  database_name : option string;
  connection_status : string;
  collections_listed : list string;
}.

(** Statements that update the [response] dict and may raise: the state
    reached when an exception is raised is the one its handler sees. *)
Definition stmt (A : Type) : Type := diagnostics → outcome A * diagnostics.

Definition seq {A B} (m : stmt A) (k : A → stmt B) : stmt B :=
  λ r, match m r with
       | (Returned a, r') => k a r'
       | (Raised e, r') => (Raised e, r')
       end.

Definition call {A} (o : outcome A) : stmt A := λ r, (o, r).

Definition try_stmt (m : stmt unit) (h : exn → stmt unit) : stmt unit :=
  λ r, match m r with
       | (Returned a, r') => (Returned a, r')
       | (Raised e, r') => h e r'
       end.

Notation "'let*' x := m 'in' k" := (seq m (λ x, k))
  (at level 10, x name, k at level 200).
Notation "m >> k" := (seq m (λ _, k))
  (at level 90, right associativity).

Definition update (f : diagnostics → diagnostics) : stmt unit :=
  λ r, (Returned (), f r).

(** [response["database"] = v] *)
Definition set_database (v : string) : stmt unit :=
  update (λ '(Build_diagnostics b _ u n c l), Build_diagnostics b v u n c l).

(** [response["database_url"] = v] *)
Definition set_database_url (v : string) : stmt unit :=
  update (λ '(Build_diagnostics b d _ n c l), Build_diagnostics b d (Some v) n c l).

(** [response["database_name"] = v] *)
Definition set_database_name (v : string) : stmt unit :=
  update (λ '(Build_diagnostics b d u _ c l), Build_diagnostics b d u (Some v) c l).

(** [response["connection_status"] = v] *)
Definition set_connection_status (v : string) : stmt unit :=
  update (λ '(Build_diagnostics b d u n _ l), Build_diagnostics b d u n v l).

(** [response["collections"] = v] *)
Definition set_collections (v : list string) : stmt unit :=
  update (λ '(Build_diagnostics b d u n c _), Build_diagnostics b d u n c v).

(** [str(e)] *)
Definition str (e : exn) : string :=
  match e with
  | HTTPException c d => d
  | RequestValidationError => "request validation error"
  | ValidationError f => f
  | OperationFailure m => m
  | Exception m => m
  end.

(** A byte that continues a UTF-8 character. *)
Definition continuation (c : ascii) : bool :=
  let n := nat_of_ascii c in (128 <=? n)%nat && (n <? 192)%nat.

(** [s[:n]]: the first [n] characters of a UTF-8 string, each with all
    its bytes. *)
Fixpoint take_chars (n : nat) (s : string) : string :=
  match s with
  | EmptyString => EmptyString
  | String c s' =>
      if continuation c then String c (take_chars n s')
      else match n with
           | O => EmptyString
           | S n' => String c (take_chars n' s')
           end
  end.

(** [len(s)], in characters. *)
Fixpoint utf8_length (s : string) : nat :=
  match s with
  | EmptyString => O
  | String c s' =>
      if continuation c then utf8_length s' else S (utf8_length s')
  end.

(** [s[:50]] *)
Definition first50 (s : string) : string := take_chars 50 s.

(** [os.getenv(k)] is true when the variable is set and not empty. *)
Definition getenv_truthy (environ : gmap string string) (k : string) : bool :=
  truthy (environ !! k).

Definition test_database (environ : gmap string string) (db : option database)
  : outcome diagnostics :=
  let response :=
    {| backend := "✅ Running";
       database_status := "❌ Not Available";
       database_url := None;
       database_name := None;
       connection_status := "Not Connected";
       collections_listed := [] |} in
  let body : stmt unit :=
    try_stmt
      (match db with
      | Some h =>
          set_database "✅ Available" >>
          set_database_url "✅ Configured" >>
          set_database_name (default "✅ Connected" (db_name h)) >>
          set_connection_status "Connected" >>
          try_stmt
            (let* collections := call (list_collection_names h) in
             set_collections (take 10 collections) >>
             set_database "✅ Connected & Working")
            (λ e, set_database ("⚠️  Connected but Error: " +:+ first50 (str e)))
      | None =>
          set_database "⚠️  Available but not initialized"
       end)
      (λ e, set_database ("❌ Error: " +:+ first50 (str e))) >>
    set_database_url
      (if getenv_truthy environ "DATABASE_URL" then "✅ Set" else "❌ Not Set") >>
    set_database_name
      (if getenv_truthy environ "DATABASE_NAME" then "✅ Set" else "❌ Not Set") in
  let '(r, response) := body response in
  bind r (λ _, Returned response).

(** A store whose engine knows no operator beyond [.]. *)
Definition no_extensions : string → string → option (string → bool) :=
  λ _ _, None.

Definition empty_db : database :=
  {| db_name := Some "mufoods"; collections := ∅; next_id := 1%N;
     listing_error := None |}.

(** The store after seeding an empty database at time [0]. *)
Definition seeded_db : database :=
  insert_many empty_db "beverage" (stamp 0 <$> sample).

Definition names (r : outcome (list document)) : outcome (list (option value)) :=
  bind r (λ l, Returned ((λ d : document, d !! "name") <$> l)).

(** ** The properties the handlers are checked against *)

Definition in_stock (d : document) : Prop :=
  d !! "in_stock" = Some (VBool true).

(** The strings held by field [k] of [d]: the string itself, or the
    elements of a list of strings. *)
Definition field_strings (d : document) (k : string) : list string :=
  match d !! k with
  | Some (VStr s) => [s]
  | Some (VList l) => l
  | _ => []
  end.

Definition has_tag (x : string) (d : document) : Prop :=
  x ∈ field_strings d "tags".

Global Instance has_tag_dec x d : Decision (has_tag x d).
Proof. unfold has_tag. apply _. Defined.

(** [b] is the capital of the small letter [a]. *)
Definition capital_of (a b : ascii) : Prop :=
  (97 ≤ nat_of_ascii a ≤ 122)%nat ∧ nat_of_ascii a = (nat_of_ascii b + 32)%nat.

(** Two characters are the same letter up to case. *)
Definition same_letter (a b : ascii) : Prop :=
  a = b ∨ capital_of a b ∨ capital_of b a.

(** [q] occurs in [s] as a substring, up to the case of letters. *)
Definition contains_ci (q s : string) : Prop :=
  ∃ pre mid post,
    list_ascii_of_string s = pre ++ mid ++ post ∧
    Forall2 same_letter (list_ascii_of_string q) mid.

Definition searched_fields : list string := ["name"; "flavor"; "description"].

(** [q] occurs, up to case, in the name, the flavor or the description. *)
Definition mentions (q : string) (d : document) : Prop :=
  ∃ k s, k ∈ searched_fields ∧ s ∈ field_strings d k ∧ contains_ci q s.

(** [q] is ASCII text without regular-expression metacharacters (and
    without the NUL byte). *)
Definition literal_ascii (q : string) : Prop :=
  Forall (λ c, ordinary c = true) (list_ascii_of_string q).

(** The name, the flavor and the description of [d] are ASCII text. *)
Definition ascii_searched (d : document) : Prop :=
  ∀ k s, k ∈ searched_fields → s ∈ field_strings d k → ascii_only s = true.

Definition ascii_searchedb (d : document) : bool :=
  forallb (λ k, forallb ascii_only (field_strings d k)) searched_fields.

Definition items_of {A} (r : outcome (list A)) : list A :=
  match r with
  | Returned l => l
  | Raised _ => []
  end.

(** The document carries the tag asked for, when one is asked for. *)
Definition wanted_tag (tag : option string) (d : document) : Prop :=
  ∀ x, tag = Some x → x ≠ "" → has_tag x d.

(** The pattern [p], case-insensitive, matches somewhere in the name, the
    flavor or the description. *)
Definition regex_hit pcre (p : string) (d : document) : Prop :=
  ∃ k s, k ∈ searched_fields ∧ s ∈ field_strings d k ∧
         regex_match pcre p "i" s = true.

Definition wanted_q pcre (q : option string) (d : document) : Prop :=
  ∀ p, q = Some p → p ≠ "" → regex_hit pcre p d.

(** [mentions], as a test. *)
Definition mentionsb (q : string) (d : document) : bool :=
  existsb (λ k, existsb (λ s,
      search (Lit <$> list_ascii_of_string q) (list_ascii_of_string s))
    (field_strings d k)) searched_fields.

(** The reading of the [q] parameter as a plain substring search: the
    listing is exactly the in-stock documents that mention [q], each
    without its [_id]. *)
Definition substring_listing pcre (h : database) (tag : option string)
    (q : string) : Prop :=
  ∃ items,
    list_beverages pcre (Some h) tag (Some q) = Returned items ∧
    ∀ d, d ∈ items ↔
         ∃ d0, d0 ∈ collection h "beverage" ∧ d = pop_id d0 ∧
               in_stock d0 ∧ mentions q d0.

Definition citrus_zing_stored : document :=
  default ∅ (collection seeded_db "beverage" !! 0%nat).

Definition mango_bliss_stored : document :=
  default ∅ (collection seeded_db "beverage" !! 1%nat).

(** ** The schema [Beverage] *)

Definition is_str (v : option value) : bool :=
  match v with Some (VStr _) => true | _ => false end.

Definition is_optional_str (v : option value) : bool :=
  match v with None | Some VNone | Some (VStr _) => true | _ => false end.

(** [price: float = Field(..., ge=0)] *)
Definition price_ok (v : option value) : bool :=
  match v with
  | Some (VFloat x) => (0 <=? x)%float
  | Some (VInt n) => 0 <=? n
  | _ => false
  end.

(** [size_ml: int = Field(..., ge=50, le=5000)] *)
Definition size_ml_ok (v : option value) : bool :=
  match v with
  | Some (VInt n) => (50 <=? n) && (n <=? 5000)
  | _ => false
  end.

Definition is_optional_list (v : option value) : bool :=
  match v with None | Some (VList _) => true | _ => false end.

Definition is_optional_bool (v : option value) : bool :=
  match v with None | Some (VBool _) => true | _ => false end.

(** The field constraints of [Beverage]; the grammar of [HttpUrl] is left
    out, [image_url] is checked to be a string or absent. *)
Definition Beverage_valid (d : document) : bool :=
  is_str (d !! "name") && is_str (d !! "flavor") &&
  is_optional_str (d !! "description") &&
  price_ok (d !! "price") && size_ml_ok (d !! "size_ml") &&
  is_optional_str (d !! "image_url") &&
  is_optional_list (d !! "tags") && is_optional_bool (d !! "in_stock").

(** What is promised of a seeded record at time [now]. *)
Definition seeded_invariants (now : datetime) (d : document) : Prop :=
  Beverage_valid d = true ∧
  (∃ s, d !! "name" = Some (VStr s)) ∧
  (∃ s, d !! "flavor" = Some (VStr s)) ∧
  (∃ x, d !! "price" = Some (VFloat x) ∧ (0 <=? x)%float = true) ∧
  (∃ n, d !! "size_ml" = Some (VInt n) ∧ 50 ≤ n ≤ 5000) ∧
  d !! "created_at" = Some (VDatetime now) ∧
  d !! "updated_at" = Some (VDatetime now).

(** The beverage documents that a call added to the store. *)
Definition inserted (db db' : option database) : list document :=
  match db, db' with
  | Some h, Some h' =>
      drop (length (collection h "beverage")) (collection h' "beverage")
  | _, _ => []
  end.

(** A validator that accepts exactly the strings with an at sign: what it
    rejects, every validator of email addresses rejects. *)
Definition at_sign_validator (s : string) : option string :=
  if existsb (Ascii.eqb "@"%char) (list_ascii_of_string s) then Some s else None.

Definition invalid_email_body : document :=
  dict [ ("name", VStr "Ada"); ("email", VStr "not-an-email");
         ("subject", VStr "Order"); ("message", VStr "Hello") ].

(** ** Further properties *)

(** The environment variable [k] is set to a non-empty value. *)
Definition env_set (environ : gmap string string) (k : string) : Prop :=
  ∃ v, environ !! k = Some v ∧ v ≠ "".

(** The fields that the body model [CreateInquiry] requires. *)
Definition required_fields : list string :=
  ["name"; "email"; "subject"; "message"].

(** [phone: Optional[str] = None] as read from a body. *)
Definition phone_of (body : document) : option string :=
  match body !! "phone" with
  | Some (VStr p) => Some p
  | _ => None
  end.

(** The fields of the schema [Beverage]. *)
Definition Beverage_fields : list string :=
  ["name"; "flavor"; "description"; "price"; "size_ml"; "image_url"; "tags";
   "in_stock"].

(** [d] and [s] hold the same value in every field of [Beverage]. *)
Definition same_beverage (d s : document) : Prop :=
  ∀ k, k ∈ Beverage_fields → d !! k = s !! k.


Definition body_without_email : document :=
  dict [ ("name", VStr "Ada"); ("subject", VStr "Order");
         ("message", VStr "Hello") ].

(** * Proofs *)

Lemma Returned_inj {A} (x y : A) : Returned x = Returned y → x = y.
Proof. by intros [= ->]. Qed.

(** ** Literal patterns search for a substring *)

Lemma ordinary_not_dot c : ordinary c = true → Ascii.eqb c dot = false.
Proof.
  intros H. destruct (Ascii.eqb_spec c dot) as [->|]; [|done].
  vm_compute in H. discriminate.
Qed.

Lemma atoms_literal p :
  Forall (λ c, ordinary c = true) p → atoms p = Some (Lit <$> p).
Proof.
  induction 1 as [|c p Hc _ IH]; [done|].
  cbn [atoms]. unfold atom_of.
  by rewrite (ordinary_not_dot _ Hc), Hc, IH.
Qed.

Lemma nat_of_ascii_inj a b : nat_of_ascii a = nat_of_ascii b → a = b.
Proof.
  intros H. by rewrite <- (ascii_nat_embedding a), <- (ascii_nat_embedding b), H.
Qed.

Lemma nat_of_lower a :
  nat_of_ascii (lower a) =
  if (65 <=? nat_of_ascii a)%nat && (nat_of_ascii a <=? 90)%nat
  then (nat_of_ascii a + 32)%nat else nat_of_ascii a.
Proof.
  unfold lower.
  destruct ((65 <=? nat_of_ascii a)%nat && (nat_of_ascii a <=? 90)%nat) eqn:E;
    [|done].
  apply andb_true_iff in E as [_ E%Nat.leb_le].
  apply nat_ascii_embedding. lia.
Qed.

(** The matcher's comparison of two characters is [same_letter]. *)
Lemma lower_same_letter a b : lower a = lower b ↔ same_letter a b.
Proof.
  unfold same_letter, capital_of. split.
  - intros H%(f_equal nat_of_ascii). rewrite !nat_of_lower in H.
    destruct ((65 <=? nat_of_ascii a)%nat && (nat_of_ascii a <=? 90)%nat) eqn:Ea;
      destruct ((65 <=? nat_of_ascii b)%nat && (nat_of_ascii b <=? 90)%nat) eqn:Eb;
      rewrite ?andb_true_iff, ?andb_false_iff, ?Nat.leb_le, ?Nat.leb_gt in *.
    + left. apply nat_of_ascii_inj. lia.
    + right. right. lia.
    + right. left. lia.
    + left. by apply nat_of_ascii_inj.
  - intros [->|[[Hr He]|[Hr He]]]; [done| |];
      apply nat_of_ascii_inj; rewrite !nat_of_lower;
      destruct ((65 <=? nat_of_ascii a)%nat && (nat_of_ascii a <=? 90)%nat) eqn:Ea;
      destruct ((65 <=? nat_of_ascii b)%nat && (nat_of_ascii b <=? 90)%nat) eqn:Eb;
      rewrite ?andb_true_iff, ?andb_false_iff, ?Nat.leb_le, ?Nat.leb_gt in *;
      lia.
Qed.

Lemma match_here_literal p s :
  match_here (Lit <$> p) s = true ↔
  ∃ mid post, s = mid ++ post ∧ Forall2 same_letter p mid.
Proof.
  revert s. induction p as [|c p IH]; intros s.
  - split; [intros _; exists [], s; by split; [|constructor]|done].
  - destruct s as [|x s]; cbn.
    + split; [done|]. intros (mid & post & Hs & Hm).
      destruct mid; [by apply Forall2_cons_nil_inv in Hm|done].
    + rewrite andb_true_iff, IH, Ascii.eqb_eq, lower_same_letter. split.
      * intros [Hc (mid & post & -> & Hm)]. exists (x :: mid), post.
        split; [done|by constructor].
      * intros (mid & post & Hs & Hm).
        destruct mid as [|y mid]; [by apply Forall2_cons_nil_inv in Hm|].
        apply Forall2_cons in Hm as [Hc Hm]. injection Hs as -> ->.
        split; [done|]. by exists mid, post.
Qed.

Lemma search_literal p s :
  search (Lit <$> p) s = true ↔
  ∃ pre mid post, s = pre ++ mid ++ post ∧ Forall2 same_letter p mid.
Proof.
  induction s as [|x s IH]; cbn [search]; rewrite orb_true_iff.
  - rewrite match_here_literal. split.
    + intros [(mid & post & Hs & Hm)|]; [|done]. by exists [], mid, post.
    + intros (pre & mid & post & Hs & Hm). left.
      destruct pre; [by exists mid, post|done].
  - rewrite match_here_literal, IH. split.
    + intros [(mid & post & Hs & Hm)|(pre & mid & post & Hs & Hm)].
      * by exists [], mid, post.
      * exists (x :: pre), mid, post. split; [|done]. cbn. by rewrite Hs.
    + intros (pre & mid & post & Hs & Hm). destruct pre as [|y pre].
      * left. by exists mid, post.
      * right. injection Hs as _ Hs. by exists pre, mid, post.
Qed.

Lemma search_contains_ci q s :
  search (Lit <$> list_ascii_of_string q) (list_ascii_of_string s) = true ↔
  contains_ci q s.
Proof. apply search_literal. Qed.

Lemma mentionsb_mentions q d : mentions q d ↔ mentionsb q d = true.
Proof.
  unfold mentions, mentionsb. rewrite existsb_exists. split.
  - intros (k & s & Hk & Hs & Hc). exists k. split; [by apply list_elem_of_In|].
    apply existsb_exists. exists s. split; [by apply list_elem_of_In|].
    by apply search_contains_ci.
  - intros (k & Hk & (s & Hs & Hc)%existsb_exists). exists k, s.
    split; [by apply list_elem_of_In|]. split; [by apply list_elem_of_In|].
    by apply search_contains_ci.
Qed.

(** ** What a filter selects *)

Section Filters.

Variable pcre : string → string → option (string → bool).

Lemma string_eqb_list_elem s l : string_eqb_list s l = true ↔ s ∈ l.
Proof.
  unfold string_eqb_list. induction l as [|x l IH]; cbn.
  - split; [done|]. by intros ?%elem_of_nil.
  - rewrite orb_true_iff, IH, String.eqb_eq, elem_of_cons. done.
Qed.

Lemma holds_in_stock (d : document) :
  holds pcre (CEq (VBool true)) (d !! "in_stock") = true ↔ in_stock d.
Proof.
  unfold in_stock. destruct (d !! "in_stock") as [[| [] | | | | | |]|]; cbn;
    split; congruence.
Qed.

Lemma holds_in (d : document) k x :
  holds pcre (CIn [x]) (d !! k) = true ↔ x ∈ field_strings d k.
Proof.
  unfold field_strings. destruct (d !! k) as [[| | | | s | l | |]|]; cbn [holds];
    try (split; [done|by intros ?%elem_of_nil]).
  - rewrite string_eqb_list_elem, !list_elem_of_singleton. split; congruence.
  - rewrite existsb_exists. setoid_rewrite string_eqb_list_elem.
    setoid_rewrite list_elem_of_singleton. setoid_rewrite <- list_elem_of_In.
    split; [by intros (y & Hy & ->)|]. intros Hx. by exists x.
Qed.

Lemma holds_regex (d : document) k p o :
  holds pcre (CRegex p o) (d !! k) = true ↔
  ∃ s, s ∈ field_strings d k ∧ regex_match pcre p o s = true.
Proof.
  unfold field_strings. destruct (d !! k) as [[| | | | s | l | |]|]; cbn [holds];
    try (split; [done|by intros (? & ?%elem_of_nil & _)]).
  - split; [intros H; exists s; split; [by apply list_elem_of_singleton|done]|].
    by intros (? & ->%list_elem_of_singleton & ?).
  - rewrite existsb_exists. by setoid_rewrite <- list_elem_of_In.
Qed.

Lemma matches_fields_singleton (d : document) k c :
  matches_fields pcre d {[ k := c ]} = true ↔ holds pcre c (d !! k) = true.
Proof.
  unfold matches_fields. by rewrite bool_decide_eq_true, map_Forall_singleton.
Qed.

Lemma or_clause_holds (d : document) p :
  clause_holds pcre d "$or"
    (Or [ {[ "name" := regex_i p ]}; {[ "flavor" := regex_i p ]};
          {[ "description" := regex_i p ]} ]) = true ↔
  regex_hit pcre p d.
Proof.
  unfold regex_hit, searched_fields, regex_i. cbn [clause_holds existsb].
  rewrite String.eqb_refl, andb_true_l, orb_false_r, !orb_true_iff.
  rewrite !matches_fields_singleton, !holds_regex. split.
  - intros [(s & ? & ?)|[(s & ? & ?)|(s & ? & ?)]];
      [exists "name", s|exists "flavor", s|exists "description", s];
      (split; [set_solver|done]).
  - intros (k & s & Hk & Hs & Hm).
    rewrite !elem_of_cons in Hk. destruct Hk as [->|[->|[->|?%elem_of_nil]]];
      [left|right; left|right; right|done]; by exists s.
Qed.

Lemma wanted_tag_some t d : t ≠ "" → wanted_tag (Some t) d ↔ has_tag t d.
Proof.
  intros Ht. unfold wanted_tag. split; [intros H; by apply H|].
  intros H x [= <-] _. done.
Qed.

Lemma wanted_tag_none tag d : truthy tag = false → wanted_tag tag d ↔ True.
Proof.
  unfold truthy, wanted_tag. destruct tag as [t|]; [|done].
  destruct (String.eqb_spec t "") as [->|]; [|done].
  intros _. split; [done|]. by intros _ x [= <-] ?.
Qed.

Lemma wanted_q_some p d : p ≠ "" → wanted_q pcre (Some p) d ↔ regex_hit pcre p d.
Proof.
  intros Hp. unfold wanted_q. split; [intros H; by apply H|].
  intros H x [= <-] _. done.
Qed.

Lemma wanted_q_none q d : truthy q = false → wanted_q pcre q d ↔ True.
Proof.
  unfold truthy, wanted_q. destruct q as [p|]; [|done].
  destruct (String.eqb_spec p "") as [->|]; [|done].
  intros _. split; [done|]. by intros _ x [= <-] ?.
Qed.

Lemma truthy_some s : s ≠ "" → truthy (Some s) = true.
Proof. intros H. unfold truthy. by destruct (String.eqb_spec s ""). Qed.

Lemma truthy_true s : truthy s = true → ∃ x, s = Some x ∧ x ≠ "".
Proof.
  unfold truthy. destruct s as [x|]; [|done].
  destruct (String.eqb_spec x ""); [done|]. by exists x.
Qed.

Lemma matches_build_filter (d : document) tag q :
  matches pcre d (build_filter tag q) = true ↔
  in_stock d ∧ wanted_tag tag d ∧ wanted_q pcre q d.
Proof.
  unfold matches. rewrite bool_decide_eq_true. unfold build_filter.
  destruct (truthy tag) eqn:Et; destruct (truthy q) eqn:Eq.
  - apply truthy_true in Et as (t & -> & Ht).
    apply truthy_true in Eq as (p & -> & Hp).
    rewrite wanted_tag_some, wanted_q_some by done.
    rewrite map_Forall_insert by (by rewrite lookup_insert_ne).
    rewrite map_Forall_insert by done.
    rewrite map_Forall_singleton, or_clause_holds. cbn [clause_holds].
    rewrite holds_in, holds_in_stock. unfold has_tag. tauto.
  - apply truthy_true in Et as (t & -> & Ht).
    rewrite wanted_tag_some, wanted_q_none by done.
    assert (map_Forall (λ k c, clause_holds pcre d k c = true)
              (<["tags" := Cond (CIn [t])]>
                 ({[ "in_stock" := Cond (CEq (VBool true)) ]}
                    : gmap string clause))
            ↔ has_tag t d ∧ in_stock d) as Hm.
    { rewrite map_Forall_insert by done. rewrite map_Forall_singleton.
      cbn [clause_holds]. by rewrite holds_in, holds_in_stock. }
    destruct q as [p|]; [cbn in Eq; destruct (String.eqb p "")|];
      try discriminate; rewrite Hm; tauto.
  - apply truthy_true in Eq as (p & -> & Hp).
    rewrite wanted_tag_none, wanted_q_some by done.
    assert (map_Forall (λ k c, clause_holds pcre d k c = true)
              (<["$or" := Or [ {[ "name" := regex_i p ]};
                               {[ "flavor" := regex_i p ]};
                               {[ "description" := regex_i p ]} ]]>
                 ({[ "in_stock" := Cond (CEq (VBool true)) ]}
                    : gmap string clause))
            ↔ regex_hit pcre p d ∧ in_stock d) as Hm.
    { rewrite map_Forall_insert by done.
      rewrite map_Forall_singleton, or_clause_holds.
      cbn [clause_holds]. by rewrite holds_in_stock. }
    destruct tag as [t|]; [cbn in Et; destruct (String.eqb t "")|];
      try discriminate; rewrite Hm; tauto.
  - rewrite wanted_tag_none, wanted_q_none by done.
    assert (map_Forall (λ k c, clause_holds pcre d k c = true)
              ({[ "in_stock" := Cond (CEq (VBool true)) ]} : gmap string clause)
            ↔ in_stock d) as Hm.
    { rewrite map_Forall_singleton. cbn [clause_holds]. by rewrite holds_in_stock. }
    destruct tag as [t|]; [cbn in Et; destruct (String.eqb t "")|];
      try discriminate;
      (destruct q as [p|]; [cbn in Eq; destruct (String.eqb p "")|]);
      try discriminate; rewrite Hm; tauto.
Qed.

Lemma query_ok_build_filter tag q :
  query_ok pcre (build_filter tag q) = true ↔
  ∀ p, q = Some p → p ≠ "" → is_Some (compile pcre p "i").
Proof.
  unfold query_ok. rewrite bool_decide_eq_true. unfold build_filter.
  assert (∀ p, clause_ok pcre "$or"
                 (Or [ {[ "name" := regex_i p ]}; {[ "flavor" := regex_i p ]};
                       {[ "description" := regex_i p ]} ]) = true
               ↔ is_Some (compile pcre p "i")) as Hor.
  { intros p. cbn [clause_ok forallb]. rewrite String.eqb_refl, andb_true_l.
    rewrite !andb_true_iff, !bool_decide_eq_true, !map_Forall_singleton.
    unfold regex_i. cbn [condition_ok]. rewrite bool_decide_eq_true. tauto. }
  assert (map_Forall (λ k c, clause_ok pcre k c = true)
            ({[ "in_stock" := Cond (CEq (VBool true)) ]} : gmap string clause))
    as H0 by (by rewrite map_Forall_singleton).
  assert (∀ t, map_Forall (λ k c, clause_ok pcre k c = true)
            (<["tags" := Cond (CIn [t])]>
               ({[ "in_stock" := Cond (CEq (VBool true)) ]}
                  : gmap string clause))) as H1.
  { intros t. rewrite map_Forall_insert by done. done. }
  set (F := match tag with
            | Some t => if truthy tag then _ else _
            | None => _
            end).
  assert (map_Forall (λ k c, clause_ok pcre k c = true) F ∧ F !! "$or" = None)
    as [HF Hnone].
  { subst F. destruct tag as [t|]; [destruct (truthy (Some t))|];
      (split; [done|by rewrite ?lookup_insert_ne]). }
  clearbody F. destruct (truthy q) eqn:Eq.
  - apply truthy_true in Eq as (p & -> & Hp).
    rewrite map_Forall_insert, Hor by done. split.
    + by intros [H _] x [= <-] _.
    + intros H. split; [by apply H|done].
  - split.
    + intros _ p -> Hp. by rewrite truthy_some in Eq.
    + intros _. by destruct q.
Qed.

(** ** What the listing returns *)

Lemma list_beverages_some h tag q :
  list_beverages pcre (Some h) tag q =
  if query_ok pcre (build_filter tag q)
  then Returned (pop_id <$>
         filter (λ d, matches pcre d (build_filter tag q) = true)
                (collection h "beverage"))
  else Raised (OperationFailure "Regular expression is invalid").
Proof.
  unfold list_beverages, get_documents, find.
  by destruct (query_ok pcre (build_filter tag q)).
Qed.

Lemma list_beverages_returns h tag q :
  (∀ p, q = Some p → p ≠ "" → is_Some (compile pcre p "i")) →
  list_beverages pcre (Some h) tag q =
  Returned (pop_id <$>
    filter (λ d, matches pcre d (build_filter tag q) = true)
           (collection h "beverage")).
Proof.
  intros H. apply (query_ok_build_filter tag) in H.
  by rewrite list_beverages_some, H.
Qed.

Lemma elem_of_listing h tag q d :
  d ∈ pop_id <$> filter (λ d, matches pcre d (build_filter tag q) = true)
                        (collection h "beverage") ↔
  ∃ d0, d0 ∈ collection h "beverage" ∧ d = pop_id d0 ∧
        in_stock d0 ∧ wanted_tag tag d0 ∧ wanted_q pcre q d0.
Proof.
  rewrite list_elem_of_fmap. setoid_rewrite list_elem_of_filter.
  setoid_rewrite matches_build_filter.
  split; intros (d0 & ?); exists d0; tauto.
Qed.

Lemma items_of_listing db tag q d :
  d ∈ items_of (list_beverages pcre db tag q) →
  ∃ h d0, db = Some h ∧ d0 ∈ collection h "beverage" ∧ d = pop_id d0 ∧
          in_stock d0 ∧ wanted_tag tag d0 ∧ wanted_q pcre q d0.
Proof.
  destruct db as [h|]; [|by intros ?%elem_of_nil].
  rewrite list_beverages_some.
  destruct (query_ok pcre (build_filter tag q)); [|by intros ?%elem_of_nil].
  cbn [items_of]. intros (d0 & ?)%elem_of_listing. by exists h, d0.
Qed.

Lemma pop_id_lookup (d : document) k : k ≠ "_id" → pop_id d !! k = d !! k.
Proof. intros H. unfold pop_id. by rewrite lookup_delete_ne. Qed.

Lemma pop_id_field_strings (d : document) k :
  k ≠ "_id" → field_strings (pop_id d) k = field_strings d k.
Proof. intros H. unfold field_strings. by rewrite pop_id_lookup. Qed.

(** ** Patterns without metacharacters *)

Lemma compile_literal q :
  literal_ascii q →
  compile pcre q "i" =
  Some (λ s, if ascii_only s
             then search (Lit <$> list_ascii_of_string q) (list_ascii_of_string s)
             else pcre_match pcre q "i" s).
Proof. intros H. unfold compile. by rewrite (atoms_literal _ H). Qed.

Lemma regex_hit_literal q d :
  literal_ascii q → ascii_searched d → regex_hit pcre q d ↔ mentions q d.
Proof.
  intros H Hd. unfold regex_hit, mentions, regex_match.
  rewrite (compile_literal _ H).
  split; intros (k & s & Hk & Hs & Hm); exists k, s;
    (split; [done|]); (split; [done|]);
    rewrite (Hd k s Hk Hs) in *; by apply search_contains_ci.
Qed.

Lemma ascii_searchedb_spec d : ascii_searchedb d = true → ascii_searched d.
Proof.
  unfold ascii_searchedb, ascii_searched. rewrite forallb_forall.
  intros H k s Hk%list_elem_of_In Hs%list_elem_of_In.
  specialize (H k Hk). rewrite forallb_forall in H. by apply H.
Qed.

End Filters.

(** ** The seeded store *)

Lemma mango_bliss_in_seeded :
  mango_bliss_stored ∈ collection seeded_db "beverage".
Proof.
  apply list_elem_of_lookup. exists 1%nat. unfold mango_bliss_stored.
  destruct (lookup_lt_is_Some_2 (collection seeded_db "beverage") 1)
    as [d ->]; [|done].
  vm_compute. lia.
Qed.

Lemma citrus_zing_in_seeded :
  citrus_zing_stored ∈ collection seeded_db "beverage".
Proof.
  apply list_elem_of_lookup. exists 0%nat. unfold citrus_zing_stored.
  destruct (lookup_lt_is_Some_2 (collection seeded_db "beverage") 0)
    as [d ->]; [|done].
  vm_compute. lia.
Qed.

Lemma mango_is_literal : literal_ascii "mango".
Proof. unfold literal_ascii. cbn. by repeat constructor. Qed.

Lemma seeded_ascii d :
  d ∈ collection seeded_db "beverage" → ascii_searched d.
Proof.
  intros Hd. apply ascii_searchedb_spec.
  assert (forallb ascii_searchedb (collection seeded_db "beverage") = true)
    as H by (by vm_compute).
  rewrite forallb_forall in H. by apply H, list_elem_of_In.
Qed.

Lemma seeded_without_m_ngo d :
  d ∈ collection seeded_db "beverage" → ¬ mentions "m.ngo" d.
Proof.
  intros Hd Hm%mentionsb_mentions.
  assert (forallb (λ d, negb (mentionsb "m.ngo" d))
            (collection seeded_db "beverage") = true) as H by (by vm_compute).
  rewrite forallb_forall in H. apply list_elem_of_In, H in Hd.
  by rewrite Hm in Hd.
Qed.

Lemma seeded_no_citrus_mango d :
  d ∈ collection seeded_db "beverage" →
  ¬ (has_tag "citrus" d ∧ mentions "mango" d).
Proof.
  intros Hd [Ht Hm%mentionsb_mentions].
  assert (forallb (λ d, negb (bool_decide (has_tag "citrus" d)
                              && mentionsb "mango" d))
            (collection seeded_db "beverage") = true) as H by (by vm_compute).
  rewrite forallb_forall in H. apply list_elem_of_In, H in Hd.
  by rewrite Hm, bool_decide_eq_true_2 in Hd.
Qed.

(** ** GET /api/beverages: the claims *)

(** C1.  Every record of a listing response is in stock, whatever the
    [tag] and [q] parameters and the state of the store. *)
Theorem list_beverages_in_stock pcre db tag q :
  Forall in_stock (items_of (list_beverages pcre db tag q)).
Proof.
  apply Forall_forall. intros d (h & d0 & _ & _ & -> & Hs & _)%items_of_listing.
  unfold in_stock. by rewrite pop_id_lookup.
Qed.

(** C6.  No record of a listing response has an [_id] field. *)
Theorem list_beverages_no_id pcre db tag q :
  Forall (λ d : document, d !! "_id" = None)
         (items_of (list_beverages pcre db tag q)).
Proof.
  apply Forall_forall. intros d (h & d0 & _ & _ & -> & _)%items_of_listing.
  apply lookup_delete_eq.
Qed.

(** C10.  An empty [tag] or [q] is the same request as one without that
    parameter; in particular [tag=""] lists every in-stock document. *)
Theorem list_beverages_empty_parameter pcre db tag q :
  list_beverages pcre db (Some "") q = list_beverages pcre db None q ∧
  list_beverages pcre db tag (Some "") = list_beverages pcre db tag None ∧
  ∀ h, ∃ items,
    list_beverages pcre (Some h) (Some "") None = Returned items ∧
    ∀ d, d ∈ items ↔
         ∃ d0, d0 ∈ collection h "beverage" ∧ d = pop_id d0 ∧ in_stock d0.
Proof.
  split; [done|]. split.
  { unfold list_beverages, build_filter. by destruct tag. }
  intros h. eexists. split; [by apply list_beverages_returns|].
  intros d. rewrite elem_of_listing. split.
  - intros (d0 & ? & ? & ? & _). by exists d0.
  - intros (d0 & ? & ? & ?). exists d0. do 3 (split; [done|]). split.
    + by intros x [= <-] ?.
    + by intros x ?.
Qed.

(** C4, as stated, fails: [q] is handed to the store as a regular
    expression, and a [tag] given with it narrows the listing further.
    After seeding, [q="m.ngo"] lists Mango Bliss although no document
    contains that text, and [tag="citrus"] with [q="mango"] lists nothing
    although Mango Bliss mentions mango. *)
Lemma list_beverages_q_not_substring :
  ¬ substring_listing no_extensions seeded_db None "m.ngo" ∧
  ¬ substring_listing no_extensions seeded_db (Some "citrus") "mango".
Proof.
  split.
  - intros (items & Hl & Hi).
    rewrite list_beverages_returns in Hl
      by (intros p [= <-] _; unfold compile; cbn; by eexists).
    apply Returned_inj in Hl.
    assert (pop_id mango_bliss_stored ∈ items) as Hin.
    { rewrite <- Hl. apply elem_of_listing. exists mango_bliss_stored.
      split; [apply mango_bliss_in_seeded|]. split; [done|].
      split; [by vm_compute|]. split; [by intros x ?|].
      intros p [= <-] _. exists "name", "Mango Bliss".
      split; [apply list_elem_of_here|]. split; [|by vm_compute].
      unfold field_strings. replace (mango_bliss_stored !! "name")
        with (Some (VStr "Mango Bliss")) by (by vm_compute).
      by apply list_elem_of_singleton. }
    apply Hi in Hin as (d0 & Hd0 & _ & _ & Hm).
    by apply seeded_without_m_ngo in Hm.
  - intros (items & Hl & Hi).
    rewrite list_beverages_returns in Hl
      by (intros p [= <-] _; unfold compile; cbn; by eexists).
    apply Returned_inj in Hl.
    assert (pop_id mango_bliss_stored ∈ items) as Hin.
    { apply Hi. exists mango_bliss_stored. split; [apply mango_bliss_in_seeded|].
      split; [done|]. split; [by vm_compute|].
      apply mentionsb_mentions. by vm_compute. }
    rewrite <- Hl in Hin.
    apply elem_of_listing in Hin as (d0 & Hd0 & _ & _ & Ht & Hq).
    apply (seeded_no_citrus_mango d0 Hd0). split; [by apply Ht|].
    apply (regex_hit_literal no_extensions);
      [apply mango_is_literal|by apply seeded_ascii|].
    by apply Hq.
Qed.



(** C4, amended.  Within ASCII, a non-empty [q] without
    regular-expression metacharacters selects exactly the in-stock
    documents, of the given tag when a non-empty one is given, in which
    [q] occurs up to case in the name, the flavor or the description.
    (Outside ASCII the folding of case is the store engine's.) *)
Theorem list_beverages_q_literal pcre h tag q :
  q ≠ "" → literal_ascii q →
  Forall ascii_searched (collection h "beverage") →
  ∃ items,
    list_beverages pcre (Some h) tag (Some q) = Returned items ∧
    ∀ d, d ∈ items ↔
         ∃ d0, d0 ∈ collection h "beverage" ∧ d = pop_id d0 ∧
               in_stock d0 ∧ wanted_tag tag d0 ∧ mentions q d0.
Proof.
  intros Hq Hlit Hascii. rewrite Forall_forall in Hascii. eexists. split.
  - apply list_beverages_returns. intros p [= <-] _.
    rewrite compile_literal by done. by eexists.
  - intros d. rewrite elem_of_listing.
    split; intros (d0 & Hd0 & ? & ? & ? & Hm); exists d0;
      (do 4 (split; [assumption|])).
    + apply (proj1 (regex_hit_literal pcre q d0 Hlit (Hascii d0 Hd0))).
      by apply (proj1 (wanted_q_some pcre q d0 Hq)).
    + apply (proj2 (wanted_q_some pcre q d0 Hq)).
      by apply (proj2 (regex_hit_literal pcre q d0 Hlit (Hascii d0 Hd0))).
Qed.

Lemma list_beverages_q_literal_witness :
  ∃ items,
    list_beverages no_extensions (Some seeded_db) None (Some "mango")
    = Returned items ∧
    ∀ d, d ∈ items ↔
         ∃ d0, d0 ∈ collection seeded_db "beverage" ∧ d = pop_id d0 ∧
               in_stock d0 ∧ wanted_tag None d0 ∧ mentions "mango" d0.
Proof.
  apply (list_beverages_q_literal no_extensions seeded_db None "mango").
  - discriminate.
  - unfold literal_ascii. cbn. by repeat constructor.
  - apply Forall_forall. intros d Hd. apply ascii_searchedb_spec.
    assert (forallb ascii_searchedb (collection seeded_db "beverage") = true)
      as H by (by vm_compute).
    rewrite forallb_forall in H. by apply H, list_elem_of_In.
Defined.

(** C5, as stated, fails when [q] is given too: after seeding, Citrus Zing
    is in stock and tagged citrus, and [tag="citrus"] with [q="mango"]
    does not list it. *)
Lemma list_beverages_tag_and_q :
  citrus_zing_stored ∈ collection seeded_db "beverage" ∧
  in_stock citrus_zing_stored ∧
  has_tag "citrus" citrus_zing_stored ∧
  pop_id citrus_zing_stored ∉
    items_of (list_beverages no_extensions (Some seeded_db)
                (Some "citrus") (Some "mango")).
Proof.
  split; [apply citrus_zing_in_seeded|]. split; [by vm_compute|].
  split; [apply (bool_decide_unpack _); by vm_compute|].
  intros (h & d0 & Hh & Hd0 & _ & _ & Ht & Hq)%items_of_listing.
  apply (inj Some) in Hh. subst h.
  apply (seeded_no_citrus_mango d0 Hd0). split; [by apply Ht|].
  apply (regex_hit_literal no_extensions);
    [apply mango_is_literal|by apply seeded_ascii|].
  by apply Hq.
Qed.

(** C5, amended.  With a non-empty [tag], every listed record carries the
    tag; and when [q] is absent or empty, every in-stock document that
    carries the tag is listed. *)
Theorem list_beverages_tag pcre db x q :
  x ≠ "" →
  (∀ d, d ∈ items_of (list_beverages pcre db (Some x) q) → has_tag x d) ∧
  (∀ h d0, db = Some h → truthy q = false →
     d0 ∈ collection h "beverage" → in_stock d0 → has_tag x d0 →
     pop_id d0 ∈ items_of (list_beverages pcre db (Some x) q)).
Proof.
  intros Hx. split.
  - intros d (h & d0 & _ & _ & -> & _ & Ht & _)%items_of_listing.
    unfold has_tag. rewrite pop_id_field_strings by done. by apply Ht.
  - intros h d0 -> Hq Hd0 Hs Ht.
    rewrite list_beverages_returns.
    + cbn [items_of]. apply elem_of_listing. exists d0.
      do 3 (split; [done|]). split.
      * by intros ? [= <-] _.
      * by apply wanted_q_none.
    + intros p -> Hp. by rewrite truthy_some in Hq.
Qed.

Lemma list_beverages_tag_witness :
  (∀ d, d ∈ items_of (list_beverages no_extensions (Some seeded_db)
                        (Some "citrus") None) → has_tag "citrus" d) ∧
  (∀ h d0, Some seeded_db = Some h → truthy None = false →
     d0 ∈ collection h "beverage" → in_stock d0 → has_tag "citrus" d0 →
     pop_id d0 ∈ items_of (list_beverages no_extensions (Some seeded_db)
                             (Some "citrus") None)).
Proof.
  apply (list_beverages_tag no_extensions (Some seeded_db) "citrus" None).
  discriminate.
Defined.

(** ** POST /api/beverages/seed: the claims *)

Lemma assign_ids_length n docs : length (assign_ids n docs).1 = length docs.
Proof.
  revert n. induction docs as [|d ds IH]; intros n; [done|].
  cbn [assign_ids]. destruct (d !! "_id").
  - specialize (IH n). destruct (assign_ids n ds). cbn in *. by rewrite IH.
  - specialize (IH (N.succ n)). destruct (assign_ids (N.succ n) ds).
    cbn in *. by rewrite IH.
Qed.

(** The store adds [_id] and leaves every other field as it was. *)
Lemma assign_ids_fields n docs :
  Forall2 (λ d d' : document, ∀ k, k ≠ "_id" → d' !! k = d !! k)
          docs (assign_ids n docs).1.
Proof.
  revert n. induction docs as [|d ds IH]; intros n; [constructor|].
  cbn [assign_ids]. destruct (d !! "_id").
  - specialize (IH n). destruct (assign_ids n ds). by constructor.
  - specialize (IH (N.succ n)). destruct (assign_ids (N.succ n) ds).
    constructor; [|done]. intros k Hk. by rewrite lookup_insert_ne.
Qed.

Lemma assign_ids_Forall (P : document → Prop) n docs :
  (∀ d d' : document, (∀ k, k ≠ "_id" → d' !! k = d !! k) → P d → P d') →
  Forall P docs → Forall P (assign_ids n docs).1.
Proof.
  intros HP Hdocs. pose proof (assign_ids_fields n docs) as Hf.
  induction Hf as [|d d' l l' Hd _ IH]; [constructor|].
  apply Forall_cons in Hdocs as [Hd0 Hdocs].
  constructor; [by apply (HP d)|by apply IH].
Qed.

Lemma collection_insert_many h c docs :
  collection (insert_many h c docs) c =
  collection h c ++ (assign_ids (next_id h) docs).1.
Proof.
  unfold insert_many. destruct (assign_ids (next_id h) docs).
  unfold collection at 1. cbn. by rewrite lookup_insert_eq.
Qed.

Lemma count_documents_pos h c :
  (0 <? count_documents h c) = negb (bool_decide (collection h c = [])).
Proof.
  unfold count_documents. destruct (collection h c); cbn; [done|].
  by apply Z.ltb_lt; lia.
Qed.

(** C3.  On an empty beverage collection the seed inserts four documents
    and answers [count = 4], and any later call leaves the store as it is
    and answers that count; on a collection that already holds documents
    the seed inserts nothing and answers their number. *)
Theorem seed_beverages_guard now h :
  (collection h "beverage" = [] →
   ∃ h',
     seed_beverages now (Some h) =
       (Returned {| seed_ok := true; seed_message := "Seeded beverages";
                    seed_count := 4 |}, Some h') ∧
     length (collection h' "beverage") = 4%nat ∧
     ∀ later,
       seed_beverages later (Some h') =
         (Returned {| seed_ok := true;
                      seed_message := "Beverages already seeded";
                      seed_count := 4 |}, Some h')) ∧
  (collection h "beverage" ≠ [] →
   seed_beverages now (Some h) =
     (Returned {| seed_ok := true;
                  seed_message := "Beverages already seeded";
                  seed_count := Z.of_nat (length (collection h "beverage")) |},
      Some h)).
Proof.
  split.
  - intros Hempty. eexists. split; [|split].
    + unfold seed_beverages. rewrite count_documents_pos, Hempty. cbn. done.
    + by rewrite collection_insert_many, Hempty, length_app, assign_ids_length.
    + intros later. unfold seed_beverages. unfold count_documents at 1.
      rewrite collection_insert_many, Hempty, length_app, assign_ids_length.
      cbn. unfold count_documents.
      by rewrite collection_insert_many, Hempty, length_app, assign_ids_length.
  - intros Hfull. unfold seed_beverages. rewrite count_documents_pos.
    by rewrite bool_decide_eq_false_2.
Qed.

Lemma seed_beverages_guard_witness :
  (∃ h',
     seed_beverages 0 (Some empty_db) =
       (Returned {| seed_ok := true; seed_message := "Seeded beverages";
                    seed_count := 4 |}, Some h') ∧
     length (collection h' "beverage") = 4%nat ∧
     ∀ later,
       seed_beverages later (Some h') =
         (Returned {| seed_ok := true;
                      seed_message := "Beverages already seeded";
                      seed_count := 4 |}, Some h')) ∧
  seed_beverages 7 (Some seeded_db) =
    (Returned {| seed_ok := true;
                 seed_message := "Beverages already seeded";
                 seed_count := Z.of_nat (length (collection seeded_db "beverage")) |},
     Some seeded_db).
Proof.
  split.
  - apply (seed_beverages_guard 0 empty_db). reflexivity.
  - apply (seed_beverages_guard 7 seeded_db).
    intros H. apply (f_equal length) in H. vm_compute in H. discriminate.
Defined.

(** C8.  With no database handle the seed fails with status 500 and there
    is still no store. *)
Theorem seed_beverages_unavailable now :
  seed_beverages now None =
    (Raised (HTTPException 500 "Database not configured"), None) ∧
  http_status (seed_beverages now None).1 = 500.
Proof. done. Qed.

Lemma sample_valid : Forall (λ d, Beverage_valid d = true) sample.
Proof.
  apply Forall_forall. intros d Hd%list_elem_of_In.
  assert (forallb Beverage_valid sample = true) as H by (by vm_compute).
  rewrite forallb_forall in H. by apply H.
Qed.

Lemma Beverage_valid_fields (d d' : document) :
  (∀ k, k ≠ "_id" → d' !! k = d !! k) →
  Beverage_valid d = true → Beverage_valid d' = true.
Proof. intros H. unfold Beverage_valid. by rewrite !H. Qed.

Lemma Beverage_valid_explicit (d : document) :
  Beverage_valid d = true →
  (∃ s, d !! "name" = Some (VStr s)) ∧
  (∃ s, d !! "flavor" = Some (VStr s)) ∧
  (∃ n, d !! "size_ml" = Some (VInt n) ∧ 50 ≤ n ≤ 5000).
Proof.
  unfold Beverage_valid. rewrite !andb_true_iff.
  intros [[[[[[[Hn Hf] _] _] Hs] _] _] _].
  unfold is_str, size_ml_ok in *.
  destruct (d !! "name") as [[]|]; try done.
  destruct (d !! "flavor") as [[]|]; try done.
  destruct (d !! "size_ml") as [[]|]; try done.
  apply andb_true_iff in Hs as [?%Z.leb_le ?%Z.leb_le]. eauto 10.
Qed.

Lemma sample_prices :
  Forall (λ d : document,
            ∃ x, d !! "price" = Some (VFloat x) ∧ (0 <=? x)%float = true)
         sample.
Proof. unfold sample. repeat constructor; eexists; by vm_compute. Qed.

Lemma stamp_seeded_invariants now d :
  Beverage_valid d = true →
  (∃ x, d !! "price" = Some (VFloat x) ∧ (0 <=? x)%float = true) →
  seeded_invariants now (stamp now d).
Proof.
  intros Hv Hp.
  assert (Beverage_valid (stamp now d) = true) as Hv'.
  { unfold Beverage_valid, stamp in *. by rewrite !lookup_insert_ne. }
  destruct (Beverage_valid_explicit _ Hv') as (? & ? & ?).
  unfold seeded_invariants. do 3 (split; [done|]). split; [|split; [done|]].
  - unfold stamp. by rewrite !lookup_insert_ne.
  - unfold stamp. split.
    + by rewrite lookup_insert_ne, lookup_insert_eq.
    + by rewrite lookup_insert_eq.
Qed.

Lemma seeded_invariants_fields now (d d' : document) :
  (∀ k, k ≠ "_id" → d' !! k = d !! k) →
  seeded_invariants now d → seeded_invariants now d'.
Proof.
  intros H (Hv & ?). split; [by apply (Beverage_valid_fields d)|].
  by rewrite !H.
Qed.

(** C9.  Every document that the seed inserts satisfies the constraints
    of the schema (price at least 0, size between 50 and 5000, name and
    flavor present) and carries the time of the call as both
    [created_at] and [updated_at]. *)
Theorem seed_beverages_invariants now db r db' :
  seed_beverages now db = (r, db') →
  Forall (seeded_invariants now) (inserted db db').
Proof.
  unfold seed_beverages, inserted. destruct db as [h|]; [|intros _; constructor].
  destruct (0 <? count_documents h "beverage");
    intros H; apply (f_equal snd) in H; cbn [snd] in H; subst db'.
  - rewrite drop_all. constructor.
  - rewrite collection_insert_many, drop_app_length.
    apply assign_ids_Forall; [apply seeded_invariants_fields|].
    apply Forall_fmap, Forall_forall. intros d Hd. cbn.
    apply stamp_seeded_invariants.
    + by apply (proj1 (Forall_forall _ _) sample_valid).
    + by apply (proj1 (Forall_forall _ _) sample_prices).
Qed.


Lemma seed_beverages_invariants_witness :
  Forall (seeded_invariants 0)
         (inserted (Some empty_db) (Some seeded_db)).
Proof.
  apply (seed_beverages_invariants 0 (Some empty_db)
           (Returned {| seed_ok := true; seed_message := "Seeded beverages";
                        seed_count := 4 |})).
  reflexivity.
Defined.

(** ** GET /test: the claim *)

(** C7.  The diagnostics handler returns a response with status 200 in
    every state of the store: with no handle, with a working handle and
    with a handle whose collection listing raises; the [database] entry
    of the response says which of the three it was. *)
Theorem test_database_never_fails environ db :
  ∃ response,
    test_database environ db = Returned response ∧
    http_status (test_database environ db) = 200 ∧
    backend response = "✅ Running" ∧
    database_status response =
      match db with
      | None => "⚠️  Available but not initialized"
      | Some h =>
          match listing_error h with
          | None => "✅ Connected & Working"
          | Some msg => "⚠️  Connected but Error: " +:+ first50 msg
          end
      end.
Proof.
  unfold test_database. destruct db as [h|].
  - unfold list_collection_names. destruct (listing_error h) as [msg|];
      eexists; (split; [reflexivity|]); by repeat split.
  - eexists. split; [reflexivity|]. by repeat split.
Qed.

(** ** POST /api/contact: the claim *)

Section ContactProofs.

Variable validate_email : string → option string.

Lemma submit_contact_valid inquiry h e :
  validate_email (CreateInquiry.email inquiry) = Some e →
  ∃ h',
    submit_contact validate_email inquiry (Some h) =
      (Returned {| contact_ok := true; contact_id := next_id h |}, Some h') ∧
    length (collection h' "contactinquiry") =
      S (length (collection h "contactinquiry")).
Proof.
  intros He. unfold submit_contact, ContactInquiry_init. rewrite He.
  cbn [create_document bind]. eexists. split; [done|].
  rewrite collection_insert_many, length_app, assign_ids_length. cbn. lia.
Qed.

End ContactProofs.

(** C2, on the code.  A body whose fields are all strings passes the
    body model of the route, whatever its [email]; when that string is
    not an email address the constructor of [ContactInquiry] raises
    inside the handler, the store is left as it was, and the status is
    500, not 422. *)
Theorem post_contact_invalid_email validate_email body inquiry db :
  parse_CreateInquiry body = Returned inquiry →
  validate_email (CreateInquiry.email inquiry) = None →
  post_contact validate_email body db = (Raised (ValidationError "email"), db) ∧
  http_status (post_contact validate_email body db).1 = 500.
Proof.
  intros Hb He. unfold post_contact. rewrite Hb.
  unfold submit_contact, ContactInquiry_init. by rewrite He.
Qed.

Lemma post_contact_invalid_email_witness :
  post_contact at_sign_validator invalid_email_body (Some seeded_db)
    = (Raised (ValidationError "email"), Some seeded_db) ∧
  http_status
    (post_contact at_sign_validator invalid_email_body (Some seeded_db)).1 = 500.
Proof.
  apply (post_contact_invalid_email at_sign_validator invalid_email_body
           {| CreateInquiry.name := "Ada";
              CreateInquiry.email := "not-an-email";
              CreateInquiry.phone := None;
              CreateInquiry.subject := "Order";
              CreateInquiry.message := "Hello" |}).
  - reflexivity.
  - reflexivity.
Defined.

(** * Further properties of the handlers *)

(** ** GET /api/beverages *)

Lemma filter_sublist_impl {A} (P Q : A → Prop)
    `{!∀ x, Decision (P x)} `{!∀ x, Decision (Q x)} (l : list A) :
  (∀ x, P x → Q x) → filter P l `sublist_of` filter Q l.
Proof.
  intros HPQ. induction l as [|x l IH]; [done|].
  rewrite !filter_cons. destruct (decide (P x)) as [HP|HP].
  - rewrite decide_True by auto. by apply sublist_skip.
  - destruct (decide (Q x)); [by apply sublist_cons|done].
Qed.

Lemma sublist_pop_id (l k : list document) :
  l `sublist_of` k → pop_id <$> l `sublist_of` pop_id <$> k.
Proof.
  induction 1; cbn; [constructor|by apply sublist_skip|by apply sublist_cons].
Qed.

Lemma wanted_q_absent pcre d : wanted_q pcre None d.
Proof. by intros p ?. Qed.

Lemma wanted_tag_absent d : wanted_tag None d.
Proof. by intros x ?. Qed.

Lemma query_ok_same_q pcre tag tag' q :
  query_ok pcre (build_filter tag q) = query_ok pcre (build_filter tag' q).
Proof.
  apply eq_true_iff_eq. by rewrite !query_ok_build_filter.
Qed.

Lemma query_ok_no_q pcre tag : query_ok pcre (build_filter tag None) = true.
Proof. apply query_ok_build_filter. by intros p ?. Qed.

(** X2.  Giving [tag] or [q] only narrows a listing: what is listed with
    both is, in the same order, among what is listed with either one
    dropped, and so among the listing without parameters. *)
Theorem list_beverages_narrows pcre db tag q :
  items_of (list_beverages pcre db tag q)
    `sublist_of` items_of (list_beverages pcre db tag None) ∧
  items_of (list_beverages pcre db tag q)
    `sublist_of` items_of (list_beverages pcre db None q) ∧
  items_of (list_beverages pcre db tag q)
    `sublist_of` items_of (list_beverages pcre db None None).
Proof.
  destruct db as [h|]; [|by repeat split].
  rewrite !list_beverages_some, !query_ok_no_q.
  rewrite (query_ok_same_q pcre None tag q).
  destruct (query_ok pcre (build_filter tag q));
    [|repeat split; apply sublist_nil_l].
  cbn [items_of].
  repeat split; apply sublist_pop_id, filter_sublist_impl; intros d;
    rewrite !matches_build_filter; intros (? & ? & ?);
    auto using wanted_q_absent, wanted_tag_absent.
Qed.

Lemma filter_ext_in {A} (P Q : A → Prop)
    `{!∀ x, Decision (P x)} `{!∀ x, Decision (Q x)} (l : list A) :
  (∀ x, x ∈ l → P x ↔ Q x) → filter P l = filter Q l.
Proof.
  induction l as [|x l IH]; intros Hext; [done|].
  rewrite !filter_cons. rewrite IH by (intros y Hy; apply Hext; by right).
  destruct (decide (P x)) as [HP|HP].
  - rewrite decide_True; [done|]. apply Hext; [by left|done].
  - rewrite decide_False; [done|]. intros HQ. apply HP, Hext; [by left|done].
Qed.

Lemma same_letter_lower x y :
  Forall2 same_letter x y ↔ lower <$> x = lower <$> y.
Proof.
  split.
  - induction 1 as [|a b x y Hab _ IH]; [done|].
    cbn. apply lower_same_letter in Hab. by rewrite Hab, IH.
  - revert y. induction x as [|a x IH]; intros [|b y] Hxy;
      try discriminate; [constructor|].
    injection Hxy as Hab Hxy.
    constructor; [by apply lower_same_letter|by apply IH].
Qed.

Lemma contains_ci_same_letters q1 q2 s :
  Forall2 same_letter (list_ascii_of_string q1) (list_ascii_of_string q2) →
  contains_ci q1 s ↔ contains_ci q2 s.
Proof.
  intros H%same_letter_lower. unfold contains_ci.
  by setoid_rewrite same_letter_lower; rewrite H.
Qed.

Lemma same_letters_empty q1 q2 :
  Forall2 same_letter (list_ascii_of_string q1) (list_ascii_of_string q2) →
  q1 = "" ↔ q2 = "".
Proof.
  intros Hl%Forall2_length. by destruct q1, q2.
Qed.

(** X3.  Within ASCII the case of the letters of [q] does not matter:
    over documents whose name, flavor and description are ASCII text,
    two ASCII patterns without metacharacters that differ only in the
    case of their letters give the same response. *)
Theorem list_beverages_case_insensitive pcre h tag q1 q2 :
  literal_ascii q1 → literal_ascii q2 →
  Forall2 same_letter (list_ascii_of_string q1) (list_ascii_of_string q2) →
  Forall ascii_searched (collection h "beverage") →
  list_beverages pcre (Some h) tag (Some q1)
  = list_beverages pcre (Some h) tag (Some q2).
Proof.
  intros H1 H2 Hsame Hascii. rewrite Forall_forall in Hascii.
  rewrite !list_beverages_returns
    by (intros p [= <-] _; rewrite compile_literal by done; by eexists).
  f_equal. f_equal. apply filter_ext_in. intros d Hd.
  rewrite !matches_build_filter.
  assert (wanted_q pcre (Some q1) d ↔ wanted_q pcre (Some q2) d) as Hq; [|tauto].
  pose proof (same_letters_empty q1 q2 Hsame) as Hempty.
  pose proof (regex_hit_literal pcre q1 d H1 (Hascii d Hd)) as Hr1.
  pose proof (regex_hit_literal pcre q2 d H2 (Hascii d Hd)) as Hr2.
  assert (mentions q1 d ↔ mentions q2 d) as Hm.
  { unfold mentions.
    split; intros (k & s & ? & ? & Hc); exists k, s;
      (split; [done|]); (split; [done|]);
      by apply (contains_ci_same_letters q1 q2 s Hsame). }
  unfold wanted_q. split; intros H p [= <-] Hp.
  - apply Hr2, Hm, Hr1, (H q1); [done|]. intros E. by apply Hp, Hempty.
  - apply Hr1, Hm, Hr2, (H q2); [done|]. intros E. by apply Hp, Hempty.
Qed.

Lemma list_beverages_case_insensitive_witness :
  list_beverages no_extensions (Some seeded_db) None (Some "mango")
  = list_beverages no_extensions (Some seeded_db) None (Some "MANGO").
Proof.
  apply list_beverages_case_insensitive.
  - unfold literal_ascii. cbn. by repeat constructor.
  - unfold literal_ascii. cbn. by repeat constructor.
  - apply same_letter_lower. reflexivity.
  - apply Forall_forall. intros d Hd. apply ascii_searchedb_spec.
    assert (forallb ascii_searchedb (collection seeded_db "beverage") = true)
      as H by (by vm_compute).
    rewrite forallb_forall in H. by apply H, list_elem_of_In.
Defined.

Lemma assign_then_list pcre n docs :
  Forall (λ d : document, d !! "_id" = None ∧ in_stock d) docs →
  pop_id <$> filter (λ d, matches pcre d (build_filter None None) = true)
                    (assign_ids n docs).1 = docs.
Proof.
  revert n. induction docs as [|d ds IH]; intros n Hds; [done|].
  apply Forall_cons in Hds as [[Hid Hs] Hds].
  cbn [assign_ids]. rewrite Hid. specialize (IH (N.succ n) Hds).
  destruct (assign_ids (N.succ n) ds) as [ds' n']. cbn [fst] in *.
  rewrite filter_cons_True.
  - rewrite fmap_cons, IH. f_equal. unfold pop_id. by apply delete_insert_id.
  - apply matches_build_filter. split; [|split].
    + unfold in_stock. by rewrite lookup_insert_ne.
    + apply wanted_tag_absent.
    + apply wanted_q_absent.
Qed.

Lemma sample_listable now :
  Forall (λ d : document, d !! "_id" = None ∧ in_stock d) (stamp now <$> sample).
Proof.
  apply Forall_fmap, Forall_forall. intros d Hd%list_elem_of_In. cbn.
  assert (forallb (λ d : document,
            match d !! "_id", d !! "in_stock" with
            | None, Some (VBool true) => true
            | _, _ => false
            end) sample = true) as H by (by vm_compute).
  rewrite forallb_forall in H. specialize (H d Hd).
  unfold in_stock, stamp. rewrite !lookup_insert_ne by done.
  destruct (d !! "_id"); try done.
  by destruct (d !! "in_stock") as [[| [] | | | | | |]|].
Qed.

Lemma seed_then_handler pcre now h :
  collection h "beverage" = [] →
  list_beverages pcre (seed_beverages now (Some h)).2 None None
  = Returned (stamp now <$> sample).
Proof.
  intros Hempty. unfold seed_beverages.
  rewrite count_documents_pos, Hempty. cbn [negb bool_decide snd].
  rewrite bool_decide_eq_true_2 by done. cbn [negb snd].
  rewrite list_beverages_returns by (by intros p ?).
  rewrite collection_insert_many, Hempty, app_nil_l.
  by rewrite assign_then_list by apply sample_listable.
Qed.

Lemma stamp_same_beverage now s : same_beverage (stamp now s) s.
Proof.
  intros k Hk. unfold stamp, Beverage_fields in *.
  rewrite !lookup_insert_ne; [done| |];
    intros <-; repeat (apply elem_of_cons in Hk as [Hk|Hk]; [done|]);
    by apply elem_of_nil in Hk.
Qed.

(** X1.  Seeding and listing compose: after the seed has run on an empty
    beverage collection, a listing without parameters returns four
    records, one for each sample and no other, each holding in every
    field of [Beverage] the value the sample was written with. *)
Theorem seed_then_list pcre now h :
  collection h "beverage" = [] →
  ∃ items,
    list_beverages pcre (seed_beverages now (Some h)).2 None None
    = Returned items ∧
    length items = 4%nat ∧
    (∀ s, s ∈ sample → ∃ d, d ∈ items ∧ same_beverage d s) ∧
    (∀ d, d ∈ items → ∃ s, s ∈ sample ∧ same_beverage d s).
Proof.
  intros Hempty. exists (stamp now <$> sample).
  split; [by apply seed_then_handler|]. split; [done|]. split.
  - intros s Hs. exists (stamp now s).
    split; [by apply list_elem_of_fmap_2|apply stamp_same_beverage].
  - intros d (s & -> & Hs)%list_elem_of_fmap. exists s.
    split; [done|apply stamp_same_beverage].
Qed.

Lemma seed_then_list_witness :
  ∃ items,
    list_beverages no_extensions (seed_beverages 0 (Some empty_db)).2 None None
    = Returned items ∧
    length items = 4%nat ∧
    (∀ s, s ∈ sample → ∃ d, d ∈ items ∧ same_beverage d s) ∧
    (∀ d, d ∈ items → ∃ s, s ∈ sample ∧ same_beverage d s).
Proof. apply seed_then_list. reflexivity. Defined.

(** ** POST /api/beverages/seed *)

Lemma collection_insert_many_ne h c c' docs :
  c' ≠ c → collection (insert_many h c docs) c' = collection h c'.
Proof.
  intros Hc. unfold insert_many. destruct (assign_ids (next_id h) docs).
  unfold collection at 1. cbn. by rewrite lookup_insert_ne.
Qed.

Lemma db_name_insert_many h c docs :
  db_name (insert_many h c docs) = db_name h.
Proof. unfold insert_many. by destruct (assign_ids (next_id h) docs). Qed.

Lemma count_documents_zero h c :
  (0 <? count_documents h c) = false → collection h c = [].
Proof.
  rewrite count_documents_pos. intros H%negb_false_iff.
  by apply bool_decide_eq_true in H.
Qed.

(** X5.  Whenever the seed returns a response, it says [ok] and the
    count it reports is the number of beverage documents in the store
    after the call, whether it inserted the samples or found documents
    there. *)
Theorem seed_beverages_count now db response db' :
  seed_beverages now db = (Returned response, db') →
  ∃ h',
    db' = Some h' ∧
    seed_ok response = true ∧
    seed_count response = count_documents h' "beverage".
Proof.
  unfold seed_beverages. destruct db as [h|]; [|by intros H%(f_equal fst)].
  destruct (0 <? count_documents h "beverage") eqn:E; intros H;
    pose proof (f_equal snd H) as Hdb;
    apply (f_equal fst) in H; cbn [fst snd] in *;
    apply Returned_inj in H; subst response db'; eexists; (split; [done|]);
    (split; [done|]); cbn [seed_count]; [done|].
  apply count_documents_zero in E. unfold count_documents.
  by rewrite collection_insert_many, E, app_nil_l, assign_ids_length.
Qed.

Lemma seed_beverages_count_witness :
  ∃ h',
    Some seeded_db = Some h' ∧
    seed_ok {| seed_ok := true; seed_message := "Seeded beverages";
               seed_count := 4 |} = true ∧
    seed_count {| seed_ok := true; seed_message := "Seeded beverages";
                  seed_count := 4 |} = count_documents h' "beverage".
Proof. apply (seed_beverages_count 0 (Some empty_db)). reflexivity. Defined.

(** X6.  The seed never changes or removes what the store holds: in
    every collection the documents present before the call are still
    there, in place, after it; collections other than [beverage] and
    the name of the database are exactly as before. *)
Theorem seed_beverages_preserves now h :
  ∃ h',
    (seed_beverages now (Some h)).2 = Some h' ∧
    (∀ c, collection h c `prefix_of` collection h' c) ∧
    (∀ c, c ≠ "beverage" → collection h' c = collection h c) ∧
    db_name h' = db_name h.
Proof.
  unfold seed_beverages.
  destruct (0 <? count_documents h "beverage").
  - exists h. by repeat split.
  - eexists. split; [done|]. split; [|split].
    + intros c. destruct (decide (c = "beverage")) as [->|Hc].
      * rewrite collection_insert_many. by apply prefix_app_r.
      * by rewrite collection_insert_many_ne.
    + intros c Hc. by apply collection_insert_many_ne.
    + apply db_name_insert_many.
Qed.

(** ** GET /test *)

Lemma getenv_truthy_set environ k :
  getenv_truthy environ k = true ↔ env_set environ k.
Proof.
  unfold getenv_truthy, env_set, truthy. destruct (environ !! k) as [v|].
  - destruct (String.eqb_spec v "") as [->|Hv]; cbn.
    + split; [done|]. by intros (? & [= <-] & ?).
    + split; [by exists v|done].
  - split; [done|]. by intros (? & ? & ?).
Qed.

(** X7.  What the diagnostics report as [database_url] and
    [database_name] depends on the environment alone, never on the
    store: each is ["✅ Set"] when its variable is set to a non-empty
    value and ["❌ Not Set"] otherwise (an empty value counts as not
    set), whatever was written to the entry before. *)
Theorem test_database_environment environ db :
  ∃ response,
    test_database environ db = Returned response ∧
    (env_set environ "DATABASE_URL" → database_url response = Some "✅ Set") ∧
    (¬ env_set environ "DATABASE_URL" →
       database_url response = Some "❌ Not Set") ∧
    (env_set environ "DATABASE_NAME" → database_name response = Some "✅ Set") ∧
    (¬ env_set environ "DATABASE_NAME" →
       database_name response = Some "❌ Not Set").
Proof.
  setoid_rewrite <- getenv_truthy_set. unfold test_database.
  destruct db as [h|];
    [unfold list_collection_names; destruct (listing_error h)|];
    (eexists; split; [reflexivity|]); cbn;
    destruct (getenv_truthy environ "DATABASE_URL");
    destruct (getenv_truthy environ "DATABASE_NAME"); by repeat split.
Qed.

(** X8.  The diagnostics list at most ten collections: the first ten
    names that the store reports, and none when there is no handle or
    the listing fails; [connection_status] says whether there is a
    handle. *)
Theorem test_database_collections environ db :
  ∃ response,
    test_database environ db = Returned response ∧
    (length (collections_listed response) ≤ 10)%nat ∧
    collections_listed response =
      match db with
      | Some h => take 10 (items_of (list_collection_names h))
      | None => []
      end ∧
    connection_status response =
      match db with Some _ => "Connected" | None => "Not Connected" end.
Proof.
  unfold test_database. destruct db as [h|].
  - unfold list_collection_names. destruct (listing_error h);
      (eexists; split; [reflexivity|]); cbn [collections_listed items_of];
      (split; [|done]).
    + cbn. lia.
    + rewrite length_take. lia.
  - eexists. split; [reflexivity|]. cbn. split; [lia|done].
Qed.




(** ** POST /api/contact *)

Lemma str_field_cases body k :
  (∃ s, body !! k = Some (VStr s) ∧ str_field body k = Returned s) ∨
  ((∀ s, body !! k ≠ Some (VStr s)) ∧
   str_field body k = Raised RequestValidationError).
Proof.
  unfold str_field. destruct (body !! k) as [[]|]; eauto.
Qed.

Lemma optional_str_field_cases body k :
  (∃ p, optional_str_field body k = Returned p) ∨
  optional_str_field body k = Raised RequestValidationError.
Proof.
  unfold optional_str_field. destruct (body !! k) as [[]|]; eauto.
Qed.

(** X10.  A body in which a required field ([name], [email], [subject]
    or [message]) is missing or is not a string is refused with status
    422 before the handler runs, and the store is left as it was. *)
Theorem post_contact_rejects_body validate_email body db k :
  k ∈ required_fields →
  (∀ s, body !! k ≠ Some (VStr s)) →
  post_contact validate_email body db = (Raised RequestValidationError, db) ∧
  http_status (post_contact validate_email body db).1 = 422.
Proof.
  intros Hk Hbad. unfold post_contact.
  assert (parse_CreateInquiry body = Raised RequestValidationError) as ->;
    [|done].
  unfold parse_CreateInquiry, required_fields in *.
  destruct (str_field_cases body "name") as [(n & Hn & ->)|[_ ->]]; [|done].
  destruct (str_field_cases body "email") as [(e & He & ->)|[_ ->]]; [|done].
  destruct (optional_str_field_cases body "phone") as [[p ->]| ->]; [|done].
  destruct (str_field_cases body "subject") as [(s & Hs & ->)|[_ ->]]; [|done].
  destruct (str_field_cases body "message") as [(m & Hm & ->)|[_ ->]]; [|done].
  rewrite !elem_of_cons in Hk.
  destruct Hk as [->|[->|[->|[->|?%elem_of_nil]]]]; try done;
    exfalso; eapply Hbad; eassumption.
Qed.

Lemma post_contact_rejects_body_witness :
  post_contact at_sign_validator body_without_email (Some seeded_db)
    = (Raised RequestValidationError, Some seeded_db) ∧
  http_status
    (post_contact at_sign_validator body_without_email (Some seeded_db)).1
    = 422.
Proof.
  apply (post_contact_rejects_body _ _ _ "email").
  - unfold required_fields. apply list_elem_of_further, list_elem_of_here.
  - intros s. by vm_compute.
Defined.

(** X11.  A body whose four required fields are strings reaches the
    handler whatever the text of [email], with [phone] read as absent
    when it is missing or null. *)
Theorem post_contact_accepts_body validate_email body db n e s m :
  body !! "name" = Some (VStr n) →
  body !! "email" = Some (VStr e) →
  body !! "subject" = Some (VStr s) →
  body !! "message" = Some (VStr m) →
  (body !! "phone" = None ∨ body !! "phone" = Some VNone ∨
   ∃ p, body !! "phone" = Some (VStr p)) →
  post_contact validate_email body db =
  submit_contact validate_email
    {| CreateInquiry.name := n; CreateInquiry.email := e;
       CreateInquiry.phone := phone_of body;
       CreateInquiry.subject := s; CreateInquiry.message := m |} db.
Proof.
  intros Hn He Hs Hm Hp. unfold post_contact, parse_CreateInquiry.
  unfold str_field, optional_str_field, phone_of.
  rewrite Hn, He, Hs, Hm.
  by destruct Hp as [->|[->|[p ->]]].
Qed.

Lemma post_contact_accepts_body_witness :
  post_contact at_sign_validator invalid_email_body (Some seeded_db) =
  submit_contact at_sign_validator
    {| CreateInquiry.name := "Ada"; CreateInquiry.email := "not-an-email";
       CreateInquiry.phone := phone_of invalid_email_body;
       CreateInquiry.subject := "Order"; CreateInquiry.message := "Hello" |}
    (Some seeded_db).
Proof.
  apply post_contact_accepts_body; try reflexivity. by left.
Defined.

(** ** Sample runs *)

Example list_all :
  names (list_beverages no_extensions (Some seeded_db) None None)
  = Returned [Some (VStr "Citrus Zing"); Some (VStr "Mango Bliss");
              Some (VStr "Guava Glow"); Some (VStr "Orange Orchard")].
Proof. vm_compute. reflexivity. Qed.

Example list_mango :
  names (list_beverages no_extensions (Some seeded_db) None (Some "MANGO"))
  = Returned [Some (VStr "Mango Bliss")].
Proof. vm_compute. reflexivity. Qed.

Example list_dot :
  names (list_beverages no_extensions (Some seeded_db) (Some "tropical") (Some "g.a"))
  = Returned [Some (VStr "Guava Glow")].
Proof. vm_compute. reflexivity. Qed.

Example list_star :
  names (list_beverages no_extensions (Some seeded_db) None (Some "a*"))
  = Raised (OperationFailure "Regular expression is invalid").
Proof. vm_compute. reflexivity. Qed.

Example test_none : test_database ∅ None =
  Returned {| backend := "✅ Running";
              database_status := "⚠️  Available but not initialized";
              database_url := Some "❌ Not Set";
              database_name := Some "❌ Not Set";
              connection_status := "Not Connected";
              collections_listed := [] |}.
Proof. vm_compute. reflexivity. Qed.

Example test_seeded : test_database {[ "DATABASE_URL" := "mongodb://x" ]} (Some seeded_db) =
  Returned {| backend := "✅ Running";
              database_status := "✅ Connected & Working";
              database_url := Some "✅ Set";
              database_name := Some "❌ Not Set";
              connection_status := "Connected";
              collections_listed := ["beverage"] |}.
Proof. vm_compute. reflexivity. Qed.

Example test_fault : test_database ∅ (Some {| db_name := None; collections := ∅; next_id := 0%N; listing_error := Some "timed out" |}) =
  Returned {| backend := "✅ Running";
              database_status := "⚠️  Connected but Error: timed out";
              database_url := Some "❌ Not Set";
              database_name := Some "❌ Not Set";
              connection_status := "Connected";
              collections_listed := [] |}.
Proof. vm_compute. reflexivity. Qed.

Example list_m_ngo :
  names (list_beverages no_extensions (Some seeded_db) None (Some "m.ngo"))
  = Returned [Some (VStr "Mango Bliss")].
Proof. vm_compute. reflexivity. Qed.

Example list_citrus_mango :
  names (list_beverages no_extensions (Some seeded_db)
           (Some "citrus") (Some "mango"))
  = Returned [].
Proof. vm_compute. reflexivity. Qed.

Example contact_missing_email :
  http_status
    (post_contact at_sign_validator
       (dict [ ("name", VStr "Ada"); ("subject", VStr "Order");
               ("message", VStr "Hello") ])
       (Some empty_db)).1 = 422.
Proof. reflexivity. Qed.

Example contact_not_an_email :
  http_status
    (post_contact at_sign_validator invalid_email_body (Some empty_db)).1 = 500.
Proof. reflexivity. Qed.

Example first50_keeps_characters :
  utf8_length (first50 "éééééééééééééééééééééééééééééééééééééééééééééééééééééééééééé") = 50%nat ∧
  String.length (first50 "éééééééééééééééééééééééééééééééééééééééééééééééééééééééééééé") = 100%nat.
Proof. by vm_compute. Qed.

Example non_ascii_pattern_to_engine pcre :
  compile pcre "café" "i" = pcre "café" "i".
Proof. reflexivity. Qed.

Example non_ascii_subject_to_engine pcre :
  regex_match pcre "cafe" "i" "CAFÉ" = pcre_match pcre "cafe" "i" "CAFÉ".
Proof. reflexivity. Qed.

Example nul_pattern_to_engine pcre :
  compile pcre (String Ascii.zero "mango") "i" = pcre (String Ascii.zero "mango") "i".
Proof. reflexivity. Qed.
